(** * neuralODE-UQ: fixed-step integrators, the training loop and the
      Hessian eigen-analysis of [main-ktallam.ipynb]

    A shallow embedding of the Python source.  Python floats are Rocq's
    primitive binary64 floats where the code only adds, divides and compares
    them (the loss bookkeeping of [train]); the integrators and the
    Hessian-vector product are written once over an interface of scalar
    operations, instantiated with binary64 floats (what the program runs on)
    and with the canonical rationals [Qc] (exact arithmetic, where the
    algebraic statements hold on the nose).  Python objects that are mutated
    in place live in a heap ([gmap loc _]); exceptions are a sum type. *)

From stdpp Require Import base gmap strings list fin_maps.
From Stdlib Require Import ZArith QArith Qcanon Floats Ring Field Lia.

Set Warnings "-inexact-float".

Close Scope Qc_scope.
Close Scope Q_scope.
Close Scope Z_scope.
Local Open Scope string_scope.
Local Open Scope list_scope.

(** ** Python outcomes *)

(** The exceptions the modelled code can raise. *)
Inductive exn : Type :=
| TypeError          (* an operand is None, e.g. [None * tensor] *)
| ZeroDivisionError  (* float / 0 *)
| AttributeError     (* the loss criterion applied to None *)
| ShapeError         (* torch: sizes of tensors must match *)
| EmptyCat           (* torch.cat of an empty list of tensors *)
| KeyError           (* a dangling reference; unreachable from Python *)
| ArpackNoConvergence.

Inductive result (A : Type) : Type :=
| Ok (a : A)
| Raise (e : exn).
Arguments Ok {A} a.
Arguments Raise {A} e.

Definition rbind {A B} (r : result A) (k : A -> result B) : result B :=
  match r with
  | Ok a => k a
  | Raise e => Raise e
  end.

Declare Scope py_scope.
Delimit Scope py_scope with py.
Notation "'let!' x := c 'in' k" := (rbind c (fun x => k))
  (at level 10, x pattern, c at level 100, k at level 200, only parsing)
  : py_scope.

(** ** Scalars *)

(** The arithmetic the source performs on Python floats and on the entries
    of tensors.  [lit q] is the value a decimal literal denotes. *)
Class Scalar (R : Type) : Type := {
  lit  : Q -> R;
  radd : R -> R -> R;
  rsub : R -> R -> R;
  rmul : R -> R -> R;
  rdiv : R -> R -> R;
  ropp : R -> R;
  rleb : R -> R -> bool
}.

(** Exact rationals. *)
#[export] Instance Qc_Scalar : Scalar Qc := {
  lit := Q2Qc;
  radd := Qcplus;
  rsub := Qcminus;
  rmul := Qcmult;
  rdiv := Qcdiv;
  ropp := Qcopp;
  rleb := fun a b => if Qclt_le_dec b a then false else true
}.

Definition float_of_Z (z : Z) : float :=
  match z with
  | Z0 => PrimFloat.zero
  | Zpos _ => PrimFloat.of_uint63 (Uint63.of_Z z)
  | Zneg p => PrimFloat.opp (PrimFloat.of_uint63 (Uint63.of_Z (Zpos p)))
  end.

(** A literal [n/d] with [n] and [d] below 2^53 is the correctly rounded
    quotient of two exactly represented integers, which is the binary64
    value Python parses the literal to. *)
Definition float_lit (q : Q) : float :=
  PrimFloat.div (float_of_Z (Qnum q)) (float_of_Z (Zpos (Qden q))).

(** IEEE binary64, the arithmetic of a [.double()] model. *)
#[export] Instance float_Scalar : Scalar float := {
  lit := float_lit;
  radd := PrimFloat.add;
  rsub := PrimFloat.sub;
  rmul := PrimFloat.mul;
  rdiv := PrimFloat.div;
  ropp := PrimFloat.opp;
  rleb := PrimFloat.leb
}.

(** ** Tensors as the integrators use them *)

(** A state supports [x + y] and [c * x] for a Python float [c]. *)
Class Tensor (R T : Type) : Type := {
  tadd : T -> T -> T;
  smul : R -> T -> T
}.

(** A 0-dimensional tensor is a scalar. *)
#[export] Instance scalar_Tensor {R} `{Scalar R} : Tensor R R := {
  tadd := radd;
  smul := rmul
}.

(** A tensor of a fixed shape, given by its entries: [I] indexes the
    entries (two of them for the pendulum state, angle and angular
    velocity).  Sum and scaling act entry by entry. *)
#[export] Instance shaped_Tensor {R I} `{Scalar R} : Tensor R (I -> R) := {
  tadd := fun x y i => radd (x i) (y i);
  smul := fun c x i => rmul c (x i)
}.

Declare Scope tensor_scope.
Delimit Scope tensor_scope with T.
Infix "+" := tadd : tensor_scope.
Infix "*:" := smul : tensor_scope.
Declare Scope scalar_scope.
Delimit Scope scalar_scope with R.
Infix "+" := radd : scalar_scope.
Infix "-" := rsub : scalar_scope.
Infix "*" := rmul : scalar_scope.
Infix "/" := rdiv : scalar_scope.

(** ** Counting evaluations of the vector field *)

(** A computation that calls the vector field returns its value together
    with the points at which the field was evaluated, in call order. *)
Definition Traced (T A : Type) : Type := (A * list T)%type.

Definition tret {T A} (a : A) : Traced T A := (a, []).

Definition tbind {T A B} (m : Traced T A) (k : A -> Traced T B) : Traced T B :=
  let '(a, l1) := m in
  let '(b, l2) := k a in
  (b, l1 ++ l2).

(** [call f x] is the Python call [f(x)]. *)
Definition call {T} (f : T -> T) (x : T) : Traced T T := (f x, [x]).

Declare Scope traced_scope.
Delimit Scope traced_scope with traced.
Notation "'let!' x := c 'in' k" := (tbind c (fun x => k))
  (at level 10, x pattern, c at level 100, k at level 200, only parsing)
  : traced_scope.

(** ** ShallowODE (source lines 76-83) *)

(** The module object: [net] is the parameter set of [self.net] (applied to
    a state by a function [net_apply]); [dt] defaults to [None]; [training]
    is the flag [.train()] and [.eval()] set. *)
Record ShallowODE (R Net : Type) : Type := mkShallowODE {
  net : Net;
  dt : option R;
  method : string;
  training : bool
}.
Arguments mkShallowODE {R Net}.
Arguments net {R Net}.
Arguments dt {R Net}.
Arguments method {R Net}.
Arguments training {R Net}.

(** ** Integrators (source lines 50-66) *)

Section Integrators.
Context {R T : Type} `{Scalar R} `{Tensor R T}.

(** [euler_step_func(f, x, dt)]. *)
Definition euler_step_func (f : T -> T) (x : T) (dt : R) : Traced T T :=
  (let! k1 := call f x in
   let x_out := (x + dt *: k1)%T in
   tret x_out)%traced.

(** [rk4_step_func(f, x, dt)]; the Python products associate to the left:
    [0.5 * dt * k1] is [(0.5 * dt) * k1]. *)
Definition rk4_step_func (f : T -> T) (x : T) (dt : R) : Traced T T :=
  (let! k1 := call f x in
   let x1 := (x + (lit 0.5 * dt)%R *: k1)%T in
   let! k2 := call f x1 in
   let x2 := (x + (lit 0.5 * dt)%R *: k2)%T in
   let! k3 := call f x2 in
   let x3 := (x + dt *: k3)%T in
   let! k4 := call f x3 in
   let x_out :=
     (x + dt *: ((lit 1 / lit 6)%R *: k1 + (lit 1 / lit 3)%R *: k2
                 + (lit 1 / lit 3)%R *: k3 + (lit 1 / lit 6)%R *: k4))%T in
   tret x_out)%traced.

(** ** ShallowODE.forward (source lines 85-91) *)

(** A step function applied with [self.dt]: multiplying [None] by a tensor
    raises [TypeError] after [self.net] has been evaluated once. *)
Definition step_with (step : (T -> T) -> T -> R -> Traced T T)
    (f : T -> T) (x : T) (d : option R) : Traced T (result (option T)) :=
  match d with
  | Some h => let '(y, tr) := step f x h in (Ok (Some y), tr)
  | None => (Raise TypeError, [x])
  end.

(** [ShallowODE.forward(self, x)].  The result is [Ok (Some y)] when the
    call returns the state [y], [Ok None] when it returns Python's [None]
    and [Raise e] when it raises; the function has no [else] branch. *)
Definition forward {Net} (net_apply : Net -> T -> T)
    (self : ShallowODE R Net) (x : T) : Traced T (result (option T)) :=
  if String.eqb (method self) "euler" then
    step_with euler_step_func (net_apply (net self)) x (dt self)
  else if String.eqb (method self) "rk4" then
    step_with rk4_step_func (net_apply (net self)) x (dt self)
  else (Ok None, []).

End Integrators.

(** ** The training loop (source lines 93-139) *)

Definition NUMBER_EPOCHS : nat := 1000.

(** References to Python objects. *)
Abbreviation loc := positive.

(** [for x in xs: st = body(st, x)], stopping at the first exception. *)
Fixpoint foldM {A B} (body : A -> B -> result A) (xs : list B) (st : A)
  : result A :=
  match xs with
  | [] => Ok st
  | x :: rest => rbind (body st x) (foldM body rest)
  end.

(** [a / n] for a float [a] and an int [n]: Python raises on [n = 0]. *)
Definition py_truediv (a : float) (n : nat) : result float :=
  match n with
  | O => Raise ZeroDivisionError
  | S _ => Ok (PrimFloat.div a (float_of_Z (Z.of_nat n)))
  end.

(** [min(l, default=d)]: the first least element under [<]. *)
Definition py_min (l : list float) (d : float) : float :=
  match l with
  | [] => d
  | x :: rest =>
      fold_left (fun m y => if PrimFloat.ltb y m then y else m) rest x
  end.

Section Train.
Context {R T Net OptState : Type} `{Scalar R} `{Tensor R T}.
Local Open Scope py_scope.

(** [self.net(x)]. *)
Variable net_apply : Net -> T -> T.
(** [torch.nn.MSELoss()(outputs, targets).item()]. *)
Variable criterion : T -> T -> float.
(** [optim.Adam(ODEnet.parameters(), lr, weight_decay)] wrapped in the
    [LinearLR] scheduler, which the loop never steps. *)
Variable optim_Adam : Net -> float -> float -> OptState.
(** [zero_grad(); loss.backward(); optimizer.step()]: the new optimizer
    state and the parameter values written into the live model. *)
Variable optimizer_step :
  OptState -> ShallowODE R Net -> T -> T -> OptState * Net.

Abbreviation heap := (gmap loc (ShallowODE R Net)).

Definition deref (h : heap) (l : loc) : result (ShallowODE R Net) :=
  match h !! l with
  | Some m => Ok m
  | None => Raise KeyError
  end.

Definition set_net (n : Net) (m : ShallowODE R Net) : ShallowODE R Net :=
  mkShallowODE n (dt m) (method m) (training m).

Definition set_training (b : bool) (m : ShallowODE R Net) : ShallowODE R Net :=
  mkShallowODE (net m) (dt m) (method m) b.

(** [ODEnet.dt = dt; ODEnet.method = method]. *)
Definition set_integrator (d : R) (meth : string) (m : ShallowODE R Net)
  : ShallowODE R Net :=
  mkShallowODE (net m) (Some d) meth (training m).

(** The optimizer writes the parameters of the object at [l] in place. *)
Definition update_params (l : loc) (h : heap) (n : Net) : heap :=
  alter (set_net n) l h.

(** [copy.deepcopy(obj)]: a new object with the same contents. *)
Definition deepcopy (h : heap) (l : loc) : result (heap * loc) :=
  let! m := deref h l in
  let l' := fresh (dom h) in
  Ok (<[l' := m]> h, l').

(** [criterion(ODEnet(inputs), targets).item()]; the criterion applied to
    [None] raises. *)
Definition batch_loss (m : ShallowODE R Net) (inputs targets : T)
  : result float :=
  let! outputs := fst (forward net_apply m inputs) in
  match outputs with
  | Some y => Ok (criterion y targets)
  | None => Raise AttributeError
  end.

(** Body of the loop over [train_loader] (lines 111-118). *)
Definition train_batch (ODEnet : loc)
    (st : heap * OptState * float * list float) (b : T * T)
  : result (heap * OptState * float * list float) :=
  let '(h, opt, loss_ave, ode_loss_hist) := st in
  let '(inputs, targets) := b in
  let! m := deref h ODEnet in
  let! loss := batch_loss m inputs targets in
  let '(opt', n') := optimizer_step opt m inputs targets in
  Ok (update_params ODEnet h n', opt',
      PrimFloat.add loss_ave loss, ode_loss_hist ++ [loss]).

(** Body of the loop over [test_loader] (lines 125-128). *)
Definition test_batch (m : ShallowODE R Net) (test_loss_ave : float)
    (b : T * T) : result float :=
  let '(inputs, targets) := b in
  let! test_loss := batch_loss m inputs targets in
  Ok (PrimFloat.add test_loss_ave test_loss).

Record loop_state : Type := mkLoop {
  st_heap : heap;
  st_opt : OptState;
  ode_loss_hist : list float;
  ode_loss_ave_hist : list float;
  ode_test_loss_ave_hist : list float;
  ODEnet_best : option loc
}.

(** One iteration of [for epoch in range(1, NUMBER_EPOCHS + 1)]. *)
Definition train_epoch (ODEnet : loc) (train_loader test_loader : list (T * T))
    (st : loop_state) (epoch : nat) : result loop_state :=
  let h1 := alter (set_training true) ODEnet (st_heap st) in
  let! (h2, opt, loss_ave, hist) :=
    foldM (train_batch ODEnet) train_loader
          (h1, st_opt st, PrimFloat.zero, ode_loss_hist st) in
  let! loss_ave := py_truediv loss_ave (length train_loader) in
  let ave_hist := ode_loss_ave_hist st ++ [loss_ave] in
  let h3 := alter (set_training false) ODEnet h2 in
  let! m := deref h3 ODEnet in
  let! test_loss_ave := foldM (test_batch m) test_loader PrimFloat.zero in
  let! test_loss_ave := py_truediv test_loss_ave (length test_loader) in
  let test_hist := ode_test_loss_ave_hist st ++ [test_loss_ave] in
  if PrimFloat.ltb test_loss_ave (py_min test_hist PrimFloat.infinity) then
    let! (h4, best) := deepcopy h3 ODEnet in
    Ok (mkLoop h4 opt hist ave_hist test_hist (Some best))
  else
    Ok (mkLoop h3 opt hist ave_hist test_hist (ODEnet_best st)).

(** The epoch loop, for any number of epochs. *)
Definition train_epochs (n : nat) (ODEnet : loc)
    (train_loader test_loader : list (T * T)) (st : loop_state)
  : result loop_state :=
  foldM (train_epoch ODEnet train_loader test_loader) (seq 1 n) st.

(** [train(ODEnet, train_loader, test_loader, lr, wd, method, dt)]: the
    final heap and the returned tuple
    [(ODEnet, ODEnet_best, ode_loss_hist, ode_test_loss_ave_hist)]. *)
Definition train (h : heap) (ODEnet : loc)
    (train_loader test_loader : list (T * T)) (lr wd : float)
    (meth : string) (d : R)
  : result (heap * (loc * option loc * list float * list float)) :=
  let! m := deref h ODEnet in
  let opt := optim_Adam (net m) lr wd in
  let h0 := alter (set_integrator d meth) ODEnet h in
  let! st := train_epochs NUMBER_EPOCHS ODEnet train_loader test_loader
               (mkLoop h0 opt [] [] [] None) in
  Ok (st_heap st,
      (ODEnet, ODEnet_best st, ode_loss_hist st, ode_test_loss_ave_hist st)).

End Train.

(** ** Reverse-mode differentiation over the computation graph *)

(** The scalar entries of the model's parameters are numbered; a parameter
    tensor is the list of the numbers of its entries in [view(-1)] order.
    A scalar of the computation graph is an expression over those entries.
    [Const] is an entry of a tensor that does not require grad (data, the
    probe vector); [Act n] is the [n]-th derivative of the network's
    pointwise nonlinearity. *)
Inductive expr (R : Type) : Type :=
| Const (c : R)
| Param (i : nat)
| Add (a b : expr R)
| Sub (a b : expr R)
| Mul (a b : expr R)
| Act (n : nat) (a : expr R).
Arguments Const {R} c.
Arguments Param {R} i.
Arguments Add {R} a b.
Arguments Sub {R} a b.
Arguments Mul {R} a b.
Arguments Act {R} n a.

(** The model as the Hessian code sees it. *)
Record Model (R : Type) : Type := mkModel {
  parameters : list (list nat);  (* [model.parameters()] *)
  values : list R;               (* the value of each entry, by number *)
  grads : list (option R)        (* the [.grad] buffer of each entry *)
}.
Arguments mkModel {R}.
Arguments parameters {R}.
Arguments values {R}.
Arguments grads {R}.

(** [torch.cat(ts)] along the first dimension; an empty list of tensors
    raises. *)
Definition torch_cat {A} (ts : list (list A)) : result (list A) :=
  match ts with
  | [] => Raise EmptyCat
  | _ :: _ => Ok (concat ts)
  end.

(** Column [j] of a two-dimensional array given by its rows. *)
Definition column {A} (j : nat) (rows : list (list A)) : list A :=
  flat_map (fun row => match row !! j with
                       | Some a => [a]
                       | None => []
                       end) rows.

(** [np.transpose] of an array of [ncols] columns: its columns, as rows. *)
Definition np_transpose {A} (ncols : nat) (rows : list (list A))
  : list (list A) :=
  map (fun j => column j rows) (seq 0 ncols).

Section Hessian.
Context {R : Type} `{Scalar R}.
Local Open Scope py_scope.

(** The derivatives of the activation, [act 0] being the activation. *)
Variable act : nat -> R -> R.

Fixpoint eval (theta : nat -> R) (e : expr R) : R :=
  match e with
  | Const c => c
  | Param i => theta i
  | Add a b => (eval theta a + eval theta b)%R
  | Sub a b => (eval theta a - eval theta b)%R
  | Mul a b => (eval theta a * eval theta b)%R
  | Act n a => act n (eval theta a)
  end.

(** The derivative of a graph scalar with respect to one parameter entry,
    itself a graph scalar ([create_graph=True]). *)
Fixpoint D (i : nat) (e : expr R) : expr R :=
  match e with
  | Const _ => Const (lit 0)
  | Param j => if Nat.eqb i j then Const (lit 1) else Const (lit 0)
  | Add a b => Add (D i a) (D i b)
  | Sub a b => Sub (D i a) (D i b)
  | Mul a b => Add (Mul (D i a) b) (Mul a (D i b))
  | Act n a => Mul (Act (S n) a) (D i a)
  end.

(** [torch.autograd.grad(out, inputs)]: one gradient tensor per input
    tensor.  Differentiation is total here: torch's refusal to
    differentiate a graph in which a selected tensor does not occur is not
    modelled. *)
Definition grad (out : expr R) (inputs : list (list nat))
  : list (list (expr R)) :=
  map (map (fun i => D i out)) inputs.

(** [a * v] for one-dimensional tensors, with torch's broadcasting: equal
    sizes multiply entry by entry, a size-1 operand is expanded, any other
    pair of sizes raises. *)
Definition torch_mul (a : list (expr R)) (v : list R)
  : result (list (expr R)) :=
  if Nat.eqb (length a) (length v) then
    Ok (zip_with (fun g c => Mul g (Const c)) a v)
  else
    match a, v with
    | [g], _ => Ok (map (fun c => Mul g (Const c)) v)
    | _, [c] => Ok (map (fun g => Mul g (Const c)) a)
    | _, _ => Raise ShapeError
    end.

(** [torch.sum(t)]. *)
Definition torch_sum (t : list (expr R)) : expr R :=
  fold_right Add (Const (lit 0)) t.

(** [model.zero_grad()]. *)
Definition zero_grad (m : Model R) : Model R :=
  mkModel (parameters m) (values m) (map (fun _ => None) (grads m)).

Definition env (m : Model R) : nat -> R :=
  fun i => nth i (values m) (lit 0).

(** [sum(p.numel() for p in params)]. *)
Definition num_params_of (params : list (list nat)) : nat :=
  list_sum (map (@length nat) params).

(** The closure [hessian_vector_product(vector)] (lines 272-278) for the
    selected parameters [params = param_extract_fn(model)] and the loss
    graph [loss = compute_loss_fn(model, subset_images, subset_labels)]:
    the model after the call and the returned tensor. *)
Definition hessian_vector_product (params : list (list nat))
    (loss : expr R) (m : Model R) (vector : list R)
  : Model R * result (list R) :=
  let m := zero_grad m in
  (m,
   let grad_params := grad loss params in
   let! flat_grad := torch_cat grad_params in
   let! prod := torch_mul flat_grad vector in
   let grad_vector_product := torch_sum prod in
   let hvp := grad grad_vector_product params in
   let! flat := torch_cat hvp in
   Ok (map (eval (env m)) flat)).

(** The loop of lines 262-267: [batch_idx] counts from 0, the loop breaks
    at the first [batch_idx >= num_batches]. *)
Fixpoint collect_batches {X Y} (num_batches batch_idx : Z)
    (loader : list (X * Y)) (subset_images : list X) (subset_labels : list Y)
  : list X * list Y :=
  match loader with
  | [] => (subset_images, subset_labels)
  | (images, labels) :: rest =>
      if (batch_idx >=? num_batches)%Z then (subset_images, subset_labels)
      else collect_batches num_batches (batch_idx + 1)%Z rest
             (subset_images ++ [images]) (subset_labels ++ [labels])
  end.

(** Lines 262-270: the frozen subset. A batch is the list of its samples. *)
Definition build_subset {X Y} (train_data_loader : list (list X * list Y))
    (num_batches : Z) : result (list X * list Y) :=
  let '(subset_images, subset_labels) :=
    collect_batches num_batches 0%Z train_data_loader [] [] in
  let! subset_images := torch_cat subset_images in
  let! subset_labels := torch_cat subset_labels in
  Ok (subset_images, subset_labels).

(** [scipy.sparse.linalg.eigsh(LinearOperator((n, n), matvec), k, tol=0.001,
    which='LM')]: the eigenvalues and an [n] by [k] array whose column [i]
    is the eigenvector of eigenvalue [i]. *)
Variable eigsh :
  nat -> (list R -> result (list R)) -> nat
  -> result (list R * list (list R)).

(** Lines 257-258: [param_extract_fn] defaults to all parameters. *)
Definition default_param_extract_fn
    (param_extract_fn : option (Model R -> list (list nat)))
  : Model R -> list (list nat) :=
  match param_extract_fn with
  | None => fun x => parameters x
  | Some fn => fn
  end.

(** [get_hessian_eigenvectors] (lines 239-288).  [device] only moves
    tensors and the conversions between numpy and torch are the identity;
    [matvec] is run on [model] at every call, its result being the same
    before and after [zero_grad]. *)
Definition get_hessian_eigenvectors {X Y} (model : Model R)
    (compute_loss_fn : list X -> list Y -> expr R)
    (train_data_loader : list (list X * list Y)) (num_batches : Z)
    (n_top_vectors : nat) (param_extract_fn : option (Model R -> list (list nat)))
  : result (list R * list (list R)) :=
  let param_extract_fn := default_param_extract_fn param_extract_fn in
  let num_params := num_params_of (param_extract_fn model) in
  let! (subset_images, subset_labels) :=
    build_subset train_data_loader num_batches in
  let hessian_vector_product :=
    hessian_vector_product (param_extract_fn model)
      (compute_loss_fn subset_images subset_labels) in
  let matvec v := snd (hessian_vector_product model v) in
  let! (eigenvalues, eigenvectors) :=
    eigsh num_params matvec n_top_vectors in
  let eigenvectors := np_transpose n_top_vectors eigenvectors in
  Ok (eigenvalues, eigenvectors).

End Hessian.

(** ** Specification-level notions *)

(** Scalars whose arithmetic is exact: a commutative ring.  Binary64
    floats are not; the rationals are. *)
Class ExactScalar (R : Type) `{Scalar R} : Prop := {
  scalar_ring : ring_theory (lit 0) (lit 1) radd rmul rsub ropp (@eq R)
}.

#[export] Instance Qc_ExactScalar : ExactScalar Qc := {
  scalar_ring := Qcrt
}.

Section SpecNotions.
Context {R : Type} `{Scalar R}.
Variable act : nat -> R -> R.


(** The graph scalar [g . v] for a gradient [g] and a constant [v]. *)
Fixpoint dot_graph (g : list (expr R)) (v : list R) : expr R :=
  match g, v with
  | a :: g', c :: v' => Add (Mul a (Const c)) (dot_graph g' v')
  | _, _ => Const (lit 0)
  end.

(** The double-backprop definition of the specification (section 4.4):
    the gradient [g] of the loss, flattened in the stable parameter order;
    the scalar [s = g . v]; the gradient of [s], flattened in that order. *)
Definition double_backprop (params : list (list nat)) (loss : expr R)
    (m : Model R) (v : list R) : list R :=
  let order := concat params in
  let g := map (fun i => D i loss) order in
  let s := dot_graph g v in
  map (fun i => eval act (env m) (D i s)) order.

(** Entry [(i, k)] of the Hessian of the loss at the model's parameters. *)
Definition hessian_entry (loss : expr R) (m : Model R) (i k : nat) : R :=
  eval act (env m) (D i (D k loss)).



End SpecNotions.

(** ** A small concrete model *)

(** An instance of the parameters of [train]: a one-weight network
    [net(x) = w x] on a scalar state, the mean squared error of a
    one-element batch, and an optimizer step that halves the weight, so
    that every epoch lowers the test loss. *)
Module Toy.

Definition net_apply (w x : float) : float := PrimFloat.mul w x.

Definition criterion (o t : float) : float :=
  PrimFloat.mul (PrimFloat.sub o t) (PrimFloat.sub o t).

Definition optim_init (w lr wd : float) : unit := tt.

Definition halving_step (o : unit) (m : ShallowODE float float)
    (inputs targets : float) : unit * float :=
  (tt, PrimFloat.mul (net m) (lit 0.5)).

Definition model : ShallowODE float float :=
  mkShallowODE (lit 1) None "euler" true.

Definition heap0 : gmap loc (ShallowODE float float) := {[ 1%positive := model ]}.

Definition loader : list (float * float) := [(lit 1, lit 1)].

(** [train(ODEnet, loader, loader, lr=5e-3, wd=0, method='euler', dt=1)]. *)
Definition run :=
  train net_apply criterion optim_init halving_step heap0 1%positive
        loader loader (lit 0.005) (lit 0) "euler" (lit 1).

End Toy.

(** A two-parameter model for the Hessian code: the parameter tensors
    [[0]] and [[1]] with values 3 and 5, and the loss
    [t0^2 t1 + t1^2 + act(t0 t1)], whose Hessian at that point for the
    identity activation is [[10, 7], [7, 2]]. *)
Module ToyHessian.
Section Instance.
Context {R : Type} `{Scalar R}.

Definition act (n : nat) (x : R) : R :=
  match n with
  | 0 => x
  | 1 => lit 1
  | _ => lit 0
  end.

Definition loss : expr R :=
  Add (Add (Mul (Mul (Param 0) (Param 0)) (Param 1))
           (Mul (Param 1) (Param 1)))
      (Act 0 (Mul (Param 0) (Param 1))).

Definition model : Model R :=
  mkModel [[0]; [1]] [lit 3; lit 5] [Some (lit 7); None].

(** A loss with a diagonal Hessian, [t0^2 + 3 t1^2], and a solver result
    for it: the eigenvalue 6 with eigenvector (0, 1). *)
Definition diag_loss : expr R :=
  Add (Mul (Param 0) (Param 0))
      (Mul (Const (lit 3)) (Mul (Param 1) (Param 1))).

Definition eigsh (n : nat) (matvec : list R -> result (list R)) (k : nat)
  : result (list R * list (list R)) :=
  Ok ([lit 6], [[lit 0]; [lit 1]]).

Definition loader : list (list R * list R) :=
  [([lit 1; lit 2], [lit 3; lit 4]); ([lit 5], [lit 6])].

End Instance.
End ToyHessian.

(** ** Data loading (source lines 16 and 40-48) *)

Definition BATCH_SIZE : nat := 50.

(** The batches a [DataLoader] without shuffling draws: the samples are
    appended to the current batch in order, a batch is yielded as soon as
    it holds [batch_size] samples, and what is left at the end is yielded
    if it is not empty ([drop_last=False]). *)
Fixpoint batch_sampler {A} (batch_size : nat) (batch data : list A)
  : list (list A) :=
  match data with
  | [] => match batch with
          | [] => []
          | _ :: _ => [batch]
          end
  | a :: rest =>
      let batch := batch ++ [a] in
      if Nat.eqb (length batch) batch_size
      then batch :: batch_sampler batch_size [] rest
      else batch_sampler batch_size batch rest
  end.

(** [DataLoader(dataset, batch_size)] over a [TensorDataset] of pairs: a
    batch is the pair of the stacked inputs and the stacked targets. *)
Definition DataLoader {A B} (dataset : list (A * B)) (batch_size : nat)
  : list (list A * list B) :=
  map (fun b => (map fst b, map snd b)) (batch_sampler batch_size [] dataset).

(** [create_dataloader(x, batch_size)]: the dataset pairs [x[0:-1]] with
    [x[1::]] (two slices of the same length, as [TensorDataset] requires);
    both loaders are built with the global [BATCH_SIZE] and without
    shuffling. *)
Definition create_dataloader {S} (x : list S) (batch_size : nat)
  : list (list S * list S) * list (list S * list S) :=
  let dataset := zip (removelast x) (tail x) in
  let train_loader := DataLoader dataset BATCH_SIZE in
  let test_loader := DataLoader dataset BATCH_SIZE in
  (train_loader, test_loader).

(** A batch of states, as the loaders yield them: the sum and the scaling
    act on each state of the batch.  The integrators only add batches of
    the same size (the network maps a batch to a batch of its size). *)
#[export] Instance batch_Tensor {R T0} `{Tensor R T0} : Tensor R (list T0) := {
  tadd := zip_with tadd;
  smul := fun c => map (smul c)
}.

(** ** The constructor (source lines 79-83) *)

(** [ShallowODE(in_dim, out_dim, hidden, Act, dt, method)]: [net0] is the
    freshly initialised [shallow(in_dim, hidden, out_dim, Act)]; an omitted
    [dt] is [None], an omitted [method] is ['euler']; a new module is in
    training mode. *)
Definition ShallowODE_init {R Net} (net0 : Net) (dt : option R)
    (method : option string) : ShallowODE R Net :=
  mkShallowODE net0 dt (default "euler" method) true.

(** ** Vectors handed to the Hessian operator *)

Section VectorOps.
Context {R : Type} `{Scalar R}.



End VectorOps.

(** ** The script's training call (source lines 17-18 and 181-182) *)

Definition WEIGHT_DECAY : Q := 0.
Definition LEARNING_RATE : Q := 0.005.

(** What the call can raise: an exception of [train], or the error of the
    tuple assignment. *)
Inductive script_exn : Type :=
| FromTrain (e : exn)
| ValueError.

(** The values [train] returns. *)
Inductive pyval : Type :=
| PyModule (l : loc)
| PyNone
| PyFloats (xs : list float).

(** The tuple of the [return] statement on line 139. *)
Definition returned_tuple (r : loc * option loc * list float * list float)
  : list pyval :=
  let '(ODEnet, ODEnet_best, ode_loss_hist, ode_test_loss_ave_hist) := r in
  [PyModule ODEnet;
   match ODEnet_best with Some b => PyModule b | None => PyNone end;
   PyFloats ode_loss_hist;
   PyFloats ode_test_loss_ave_hist].

(** [a, b, c = t]: the tuple must hold exactly three values. *)
Definition unpack3 (t : list pyval) : script_exn + pyval * pyval * pyval :=
  match t with
  | [a; b; c] => inr (a, b, c)
  | _ => inl ValueError
  end.

Section Script.
Context {R St Net OptState : Type} `{Scalar R} `{Tensor R (list St)}.
Variable net_apply : Net -> list St -> list St.
Variable criterion : list St -> list St -> float.
Variable optim_Adam : Net -> float -> float -> OptState.
Variable optimizer_step :
  OptState -> ShallowODE R Net -> list St -> list St -> OptState * Net.

(** Lines 170 and 181-182 for one integrator: the loaders of the
    trajectory [x], a new model with freshly initialised parameters
    [net0], and
    [ODEnet, ODEnet_best, ode_loss_hist = train(ODEnet, ..., method=integrator, dt=dt)]. *)
Definition script_train_call (h : gmap loc (ShallowODE R Net)) (net0 : Net)
    (x : list St) (integrator : string) (dt : R)
  : script_exn + gmap loc (ShallowODE R Net) * (pyval * pyval * pyval) :=
  let '(train_loader, test_loader) := create_dataloader x BATCH_SIZE in
  let ODEnet := fresh (dom h) in
  let h := <[ODEnet := ShallowODE_init net0 (Some dt) (Some integrator)]> h in
  match train net_apply criterion optim_Adam optimizer_step h ODEnet
          train_loader test_loader (float_lit LEARNING_RATE)
          (float_lit WEIGHT_DECAY) integrator dt with
  | Raise e => inl (FromTrain e)
  | Ok (h', r) =>
      match unpack3 (returned_tuple r) with
      | inl e => inl e
      | inr names => inr (h', names)
      end
  end.

End Script.

(** * Properties *)

(** ** The result monad *)

Lemma rbind_Ok {A B} (r : result A) (k : A -> result B) (b : B) :
  rbind r k = Ok b -> exists a, r = Ok a /\ k a = Ok b.
Proof.
  destruct r as [a|e]; simpl; intros Hk; [eauto | discriminate].
Qed.

Ltac inv_bind H :=
  let a := fresh "a" in
  let Ha := fresh "Ha" in
  apply rbind_Ok in H; destruct H as (a & Ha & H).

(** ** The best-checkpoint rule *)

Lemma float_ltb_irrefl (x : float) : PrimFloat.ltb x x = false.
Proof.
  rewrite ltb_spec. unfold SFltb, SFcompare.
  destruct (Prim2SF x) as [s|s| |s m e]; try reflexivity.
  - destruct s; reflexivity.
  - rewrite Z.compare_refl, Pos.compare_refl. destruct s; reflexivity.
Qed.

(** Once a value has been appended to the history, it is not below the
    minimum of the history. *)
Lemma py_min_snoc_not_lt (l : list float) (x d : float) :
  PrimFloat.ltb x (py_min (l ++ [x]) d) = false.
Proof.
  destruct l as [|a l]; simpl.
  - apply float_ltb_irrefl.
  - rewrite fold_left_app. simpl.
    set (m := fold_left _ l a).
    destruct (PrimFloat.ltb x m) eqn:E; [apply float_ltb_irrefl | exact E].
Qed.

Section TrainFacts.
Context {R T Net OptState : Type} `{Scalar R} `{Tensor R T}.
Variable net_apply : Net -> T -> T.
Variable criterion : T -> T -> float.
Variable optim_Adam : Net -> float -> float -> OptState.
Variable optimizer_step :
  OptState -> ShallowODE R Net -> T -> T -> OptState * Net.

Lemma train_epoch_keeps_best ODEnet train_loader test_loader
    (st st' : loop_state (R:=R) (Net:=Net) (OptState:=OptState)) epoch :
  train_epoch net_apply criterion optimizer_step ODEnet train_loader
    test_loader st epoch = Ok st' ->
  ODEnet_best st' = ODEnet_best st.
Proof.
  unfold train_epoch. intros Hrun.
  inv_bind Hrun. destruct a as [[[h2 opt] loss_ave] hist].
  do 4 inv_bind Hrun.
  rewrite py_min_snoc_not_lt in Hrun.
  injection Hrun as <-. reflexivity.
Qed.

Lemma train_epochs_keeps_best ODEnet train_loader test_loader epochs :
  forall st st' : loop_state (R:=R) (Net:=Net) (OptState:=OptState),
  foldM (train_epoch net_apply criterion optimizer_step ODEnet train_loader
           test_loader) epochs st = Ok st' ->
  ODEnet_best st' = ODEnet_best st.
Proof.
  induction epochs as [|e epochs IH]; simpl; intros st st' Hrun.
  - injection Hrun as <-. reflexivity.
  - inv_bind Hrun. rewrite (IH _ _ Hrun).
    eapply train_epoch_keeps_best; eassumption.
Qed.

(** Whatever the model, the data and the optimizer, a run of [train] that
    returns hands back no best checkpoint. *)
Lemma train_best_is_None h ODEnet train_loader test_loader lr wd meth d
    h' l best hist test_hist :
  train net_apply criterion optim_Adam optimizer_step h ODEnet train_loader
    test_loader lr wd meth d = Ok (h', (l, best, hist, test_hist)) ->
  best = None.
Proof.
  unfold train, train_epochs. intros Hrun.
  do 2 inv_bind Hrun.
  apply train_epochs_keeps_best in Ha0.
  injection Hrun as _ _ <- _ _. exact Ha0.
Qed.

End TrainFacts.

(** C1, evaluated on a run the code can receive: the one-weight model
    trained for the configured 1000 epochs.  The averaged test loss falls
    strictly over the first epochs (0.25, 0.0625, 0.015625, ...), so the
    best-checkpoint rule asks for a snapshot at each of them; the run
    returns ODEnet_best = None, because the loss is appended to the history
    before it is compared with the history's minimum. *)
Theorem train_toy_run_returns_no_best :
  match Toy.run with
  | Ok (_, (ODEnet, ODEnet_best, _, ode_test_loss_ave_hist)) =>
      ODEnet = 1%positive /\ ODEnet_best = None /\
      length ode_test_loss_ave_hist = NUMBER_EPOCHS /\
      firstn 3 ode_test_loss_ave_hist = [0.25; 0.0625; 0.015625]%float
  | Raise _ => False
  end.
Proof.
  destruct Toy.run as [[h [[[l best] hist] test_hist]]|e] eqn:Hrun.
  - pose proof Hrun as Hbest. unfold Toy.run in Hbest.
    apply train_best_is_None in Hbest.
    revert Hrun. vm_compute. intros Hrun.
    injection Hrun as _ <- _ _ <-. subst best.
    repeat split.
  - revert Hrun. vm_compute. discriminate.
Qed.

(** ** The snapshot *)

Section SnapshotFacts.
Context {R Net : Type}.
Implicit Types (h : gmap loc (ShallowODE R Net)) (l s : loc).

Lemma update_params_other h l s (n : Net) :
  s <> l -> update_params l h n !! s = h !! s.
Proof. intros Hne. unfold update_params. by rewrite lookup_alter_ne. Qed.

Lemma update_params_live h l (n : Net) :
  update_params l h n !! l = set_net n <$> h !! l.
Proof. unfold update_params. by rewrite lookup_alter_eq. Qed.



End SnapshotFacts.

Section SnapshotTraining.
Context {R T Net OptState : Type} `{Scalar R} `{Tensor R T}.
Variable net_apply : Net -> T -> T.
Variable criterion : T -> T -> float.
Variable optimizer_step :
  OptState -> ShallowODE R Net -> T -> T -> OptState * Net.
Implicit Types (h : gmap loc (ShallowODE R Net)) (l s : loc).

(** A training batch touches the heap only through the optimizer's write
    to the live model. *)
Lemma train_batch_heap l h opt a hist b h' opt' a' hist' :
  train_batch net_apply criterion optimizer_step l (h, opt, a, hist) b
    = Ok (h', opt', a', hist') ->
  exists n, h' = update_params l h n.
Proof.
  unfold train_batch. destruct b as [inputs targets]. intros Hrun.
  do 2 inv_bind Hrun.
  destruct (optimizer_step opt a0 inputs targets) as [o n].
  injection Hrun as <- _ _ _. by exists n.
Qed.

Lemma train_batches_other l s batches :
  s <> l ->
  forall h opt a hist h' opt' a' hist',
  foldM (train_batch net_apply criterion optimizer_step l) batches
        (h, opt, a, hist) = Ok (h', opt', a', hist') ->
  h' !! s = h !! s.
Proof.
  intros Hne.
  induction batches as [|b batches IH]; simpl;
    intros h opt a hist h' opt' a' hist' Hrun.
  - by injection Hrun as <- _ _ _.
  - inv_bind Hrun. destruct a0 as [[[h1 opt1] a1] hist1].
    apply train_batch_heap in Ha as [n ->].
    rewrite (IH _ _ _ _ _ _ _ _ Hrun).
    by apply update_params_other.
Qed.


End SnapshotTraining.


(** An alias instead of a copy would follow the live model. *)
Lemma alias_follows_updates :
  fold_left (update_params 1%positive) [lit 0.5; lit 0.25 : float]
    Toy.heap0 !! 1%positive
  <> Toy.heap0 !! 1%positive.
Proof. vm_compute. discriminate. Qed.

(** ** The integrators *)

(** The decimal literals of the source denote the binary64 values Python
    reads them as. *)
Lemma float_lit_values :
  (lit 0.5 = 0.5 /\ lit 0.1 = 0.1 /\ lit 0.9 = 0.9 /\ lit 6 = 6)%float.
Proof. repeat split; vm_compute; reflexivity. Qed.

Ltac Qc_nonzero :=
  let E := fresh in
  intros E; apply (f_equal this) in E; vm_compute in E; discriminate E.

Lemma Qc_half_mul (d : Qc) : (lit 0.5 * d)%R = (d / lit 2)%Qc.
Proof.
  assert (E : lit 0.5 = (1 / lit 2)%Qc)
    by (apply Qc_is_canon; vm_compute; reflexivity).
  rewrite E. simpl. field. Qc_nonzero.
Qed.

(** C3: one Euler step evaluates the vector field once, at [x], and returns
    [x + dt * f(x)], over any scalars and any state type; for [f(x) = -x]
    and [dt = 0.1] the step from 1 returns 0.9, in binary64 arithmetic as
    in exact arithmetic. *)
Theorem euler_step_one_evaluation :
  (forall (R T : Type) (HR : Scalar R) (HT : Tensor R T)
          (f : T -> T) (x : T) (dt : R),
     euler_step_func f x dt = ((x + dt *: f x)%T, [x])) /\
  euler_step_func (fun x : float => PrimFloat.opp x) 1%float 0.1%float
    = (0.9%float, [1%float]) /\
  euler_step_func (fun x : Qc => Qcopp x) (lit 1) (lit 0.1)
    = (lit 0.9, [lit 1]).
Proof.
  split; [|split].
  - intros R T HR HT f x dt.
    unfold euler_step_func, call, tbind, tret. simpl. reflexivity.
  - vm_compute. reflexivity.
  - unfold euler_step_func, call, tbind, tret. simpl.
    apply (f_equal2 pair); [|reflexivity].
    apply Qc_is_canon. vm_compute. reflexivity.
Qed.


(** The same step on a scalar state, and the scenario of the specification:
    from 1 with [f(x) = -x] and [dt = 0.1], RK4 returns 0.9048375 exactly in
    rational arithmetic and a binary64 value within 1e-6 of it. *)
Lemma rk4_step_scalar (f : Qc -> Qc) (x dt : Qc) :
  let k1 := f x in
  let k2 := f (x + dt / lit 2 * k1)%Qc in
  let k3 := f (x + dt / lit 2 * k2)%Qc in
  let k4 := f (x + dt * k3)%Qc in
  rk4_step_func f x dt
  = ((x + dt * (k1 / lit 6 + k2 / lit 3 + k3 / lit 3 + k4 / lit 6))%Qc,
     [x; (x + dt / lit 2 * k1)%Qc; (x + dt / lit 2 * k2)%Qc;
      (x + dt * k3)%Qc]).
Proof.
  intros k1 k2 k3 k4.
  unfold rk4_step_func, call, tbind, tret. cbn [fst snd app].
  rewrite Qc_half_mul.
  change (@tadd Qc Qc _) with Qcplus. change (@smul Qc Qc _) with Qcmult.
  fold k1. fold k2. fold k3. fold k4.
  apply (f_equal2 pair); [|reflexivity].
  simpl. field. split; Qc_nonzero.
Qed.

Lemma rk4_decay_scenario :
  fst (rk4_step_func (fun x : Qc => Qcopp x) (lit 1) (lit 0.1))
    = lit 0.9048375 /\
  (let y := fst (rk4_step_func (fun x : float => PrimFloat.opp x) 1 0.1) in
   PrimFloat.ltb 0.9048365 y && PrimFloat.ltb y 0.9048385 = true)%float.
Proof.
  split.
  - apply Qc_is_canon. vm_compute. reflexivity.
  - vm_compute. reflexivity.
Qed.

(** ** ShallowODE.forward *)

Section ForwardFacts.
Context {R T Net : Type} `{Scalar R} `{Tensor R T}.
Variable net_apply : Net -> T -> T.

Lemma forward_euler (self : ShallowODE R Net) (x : T) (h : R) :
  method self = "euler" -> dt self = Some h ->
  forward net_apply self x
  = (Ok (Some (x + h *: net_apply (net self) x)%T), [x]).
Proof.
  intros Hm Hdt. unfold forward. rewrite Hm, Hdt. reflexivity.
Qed.

Lemma forward_rk4 (self : ShallowODE R Net) (x : T) (h : R) :
  method self = "rk4" -> dt self = Some h ->
  forward net_apply self x
  = (Ok (Some (fst (rk4_step_func (net_apply (net self)) x h))),
     snd (rk4_step_func (net_apply (net self)) x h)).
Proof.
  intros Hm Hdt. unfold forward. rewrite Hm, Hdt. reflexivity.
Qed.

(** A state comes back only under one of the two method names. *)
Lemma forward_state_method (self : ShallowODE R Net) (x y : T) :
  fst (forward net_apply self x) = Ok (Some y) ->
  method self = "euler" \/ method self = "rk4".
Proof.
  unfold forward.
  destruct (String.eqb_spec (method self) "euler") as [He|He]; [by left|].
  destruct (String.eqb_spec (method self) "rk4") as [Hr|Hr]; [by right|].
  simpl. discriminate.
Qed.

(** C10: with a method string other than 'euler' and 'rk4', forward
    returns None (no state and no exception), whatever the input state and
    whatever [dt], without evaluating the network. *)
Theorem forward_unknown_method_returns_None
    (self : ShallowODE R Net) (x : T) :
  method self <> "euler" -> method self <> "rk4" ->
  forward net_apply self x = (Ok None, []).
Proof.
  intros He Hr. unfold forward.
  destruct (String.eqb_spec (method self) "euler") as [E|_]; [contradiction|].
  destruct (String.eqb_spec (method self) "rk4") as [E|_]; [contradiction|].
  reflexivity.
Qed.

End ForwardFacts.

Lemma forward_unknown_method_returns_None_witness :
  forward Toy.net_apply (mkShallowODE (lit 1) (Some 0.1%float) "midpoint" true)
    1%float = (Ok None, []).
Proof.
  apply (forward_unknown_method_returns_None Toy.net_apply
           (mkShallowODE (lit 1) (Some 0.1%float) "midpoint" true) 1%float);
    simpl; discriminate.
Defined.

(** ** The frozen subset *)

Section SubsetFacts.
Context {X Y : Type}.
Implicit Types (loader : list (list X * list Y)) (n idx : Z).

Lemma collect_batches_take loader : forall n idx imgs lbls,
  collect_batches n idx loader imgs lbls
  = (imgs ++ map fst (take (Z.to_nat (n - idx)) loader),
     lbls ++ map snd (take (Z.to_nat (n - idx)) loader)).
Proof.
  induction loader as [|[images labels] rest IH]; intros n idx imgs lbls.
  - simpl. by rewrite take_nil, !app_nil_r.
  - simpl. destruct (Z.geb_spec idx n) as [Hge|Hlt].
    + replace (Z.to_nat (n - idx)) with 0 by lia.
      simpl. by rewrite !app_nil_r.
    + rewrite IH.
      replace (Z.to_nat (n - idx)) with (S (Z.to_nat (n - (idx + 1)))) by lia.
      simpl. by rewrite <- !app_assoc.
Qed.

(** The subset is the concatenation of the first [num_batches] batches the
    loader yields, and [torch.cat] rejects an empty collection. *)
Lemma build_subset_take loader n :
  build_subset loader n
  = match take (Z.to_nat n) loader with
    | [] => Raise EmptyCat
    | bs => Ok (concat (map fst bs), concat (map snd bs))
    end.
Proof.
  unfold build_subset. rewrite collect_batches_take, Z.sub_0_r. simpl.
  destruct (take (Z.to_nat n) loader) as [|b bs]; reflexivity.
Qed.

(** C9, amended: a loader that yields at least one batch but fewer than
    [num_batches] gives, without any error, the subset made of all its
    batches; one that yields at least [num_batches >= 1] batches gives the
    subset made of the first [num_batches]; when no batch is collected (an
    empty loader, or [num_batches <= 0]) the concatenation raises. *)
Theorem build_subset_cases loader n :
  (loader <> [] -> (Z.of_nat (length loader) < n)%Z ->
   build_subset loader n
   = Ok (concat (map fst loader), concat (map snd loader))) /\
  ((1 <= n <= Z.of_nat (length loader))%Z ->
   build_subset loader n
   = Ok (concat (map fst (take (Z.to_nat n) loader)),
         concat (map snd (take (Z.to_nat n) loader)))) /\
  (loader = [] \/ (n <= 0)%Z -> build_subset loader n = Raise EmptyCat).
Proof.
  rewrite build_subset_take. repeat split.
  - intros Hne Hlt. rewrite take_ge by lia.
    destruct loader; [contradiction | reflexivity].
  - intros [Hn Hlen].
    destruct loader as [|b rest]; [simpl in Hlen; lia|].
    destruct (Z.to_nat n) as [|k] eqn:Hk; [lia | reflexivity].
  - intros [-> | Hn].
    + by rewrite take_nil.
    + replace (Z.to_nat n) with 0 by lia. reflexivity.
Qed.

End SubsetFacts.

(** C9 as stated fails on a loader that yields no batch: it yields fewer
    batches than the one requested, and the construction raises. *)
Lemma build_subset_empty_loader_raises :
  (Z.of_nat (length (@nil (list float * list float))) < 1)%Z /\
  build_subset (@nil (list float * list float)) 1 = Raise EmptyCat.
Proof. split; [simpl; lia | reflexivity]. Qed.

(** Two batches are available and five are requested: both are used. *)
Example build_subset_short_loader :
  build_subset (ToyHessian.loader (R:=float)) 5
  = Ok ([1; 2; 5], [3; 4; 6])%float.
Proof. vm_compute. reflexivity. Qed.

Example build_subset_first_batch :
  build_subset (ToyHessian.loader (R:=float)) 1 = Ok ([1; 2], [3; 4])%float.
Proof. vm_compute. reflexivity. Qed.

(** ** The Hessian-vector product *)

Section HvpFacts.
Context {R : Type} `{Scalar R}.
Variable act : nat -> R -> R.
Implicit Types (params : list (list nat)) (loss : expr R) (m : Model R)
  (v : list R).

Lemma flat_grad loss params :
  concat (grad loss params) = map (fun i => D i loss) (concat params).
Proof. unfold grad. symmetry. apply concat_map. Qed.

Lemma torch_cat_grad loss params :
  params <> [] ->
  torch_cat (grad loss params)
  = Ok (map (fun i => D i loss) (concat params)).
Proof.
  intros Hsel. rewrite <- flat_grad.
  destruct params; [contradiction | reflexivity].
Qed.

Lemma num_params_length params :
  num_params_of params = length (concat params).
Proof. unfold num_params_of. symmetry. apply length_concat. Qed.


Lemma torch_mul_same_size (g : list (expr R)) v :
  length g = length v ->
  torch_mul g v = Ok (zip_with (fun a c => Mul a (Const c)) g v).
Proof.
  intros Hlen. unfold torch_mul.
  by rewrite (proj2 (Nat.eqb_eq _ _) Hlen).
Qed.



(** What the closure computes once a parameter tensor is selected. *)
Lemma hvp_run params loss m v :
  params <> [] ->
  hessian_vector_product act params loss m v
  = (zero_grad m,
     rbind (torch_mul (map (fun i => D i loss) (concat params)) v)
       (fun prod =>
          Ok (map (fun i => eval act (env m) (D i (torch_sum prod)))
                  (concat params)))).
Proof.
  intros Hsel. unfold hessian_vector_product.
  rewrite torch_cat_grad by assumption. cbn [rbind]. f_equal.
  destruct (torch_mul _ v) as [prod|e]; cbn [rbind]; [|reflexivity].
  rewrite torch_cat_grad by assumption. cbn [rbind]. by rewrite map_map.
Qed.

(** The returned tensor does not depend on the gradient buffers, so the
    operator the eigensolver iterates is the same at every call. *)
Lemma hvp_after_zero_grad params loss m v :
  snd (hessian_vector_product act params loss (zero_grad m) v)
  = snd (hessian_vector_product act params loss m v).
Proof. reflexivity. Qed.






End HvpFacts.




(** On that model, [H (1, 2) = (10 + 14, 7 + 4)]. *)
Example hvp_toy_value :
  double_backprop ToyHessian.act (parameters ToyHessian.model)
    ToyHessian.loss ToyHessian.model [1%float; 2%float]
  = [24%float; 11%float].
Proof. vm_compute. reflexivity. Qed.

(** ** Symmetry of the Hessian operator *)

Section Symmetry.
Context {R : Type} {HS : Scalar R} {HE : ExactScalar R}.
Variable act : nat -> R -> R.
Implicit Types (params : list (list nat)) (loss e : expr R) (m : Model R)
  (u v : list R) (idx : list nat).

Add Ring scalar_ring_instance : scalar_ring.

(** Mixed second derivatives of a graph scalar commute. *)
Lemma eval_D_comm (theta : nat -> R) (i k : nat) e :
  eval act theta (D i (D k e)) = eval act theta (D k (D i e)).
Proof.
  induction e as [c|j|a IHa b IHb|a IHa b IHb|a IHa b IHb|n a IHa]; simpl.
  - reflexivity.
  - destruct (Nat.eqb k j); destruct (Nat.eqb i j); reflexivity.
  - by rewrite IHa, IHb.
  - by rewrite IHa, IHb.
  - rewrite IHa, IHb. ring.
  - rewrite IHa. ring.
Qed.

Lemma hessian_entry_sym loss m i k :
  hessian_entry act loss m i k = hessian_entry act loss m k i.
Proof. apply eval_D_comm. Qed.







End Symmetry.


(** ** The eigensolver's output layout *)

Section TransposeFacts.
Context {A : Type}.
Implicit Types (rows : list (list A)) (row : list A).





End TransposeFacts.

Section EigenFacts.
Context {R X Y : Type} `{Scalar R}.
Variable act : nat -> R -> R.
Variable eigsh :
  nat -> (list R -> result (list R)) -> nat
  -> result (list R * list (list R)).


End EigenFacts.


(** The solver result of the instance is an eigenpair of its operator:
    [H (0, 1) = 6 (0, 1)]. *)
Example toy_eigenpair :
  snd (hessian_vector_product ToyHessian.act (parameters ToyHessian.model)
         ToyHessian.diag_loss ToyHessian.model [0; 1]%float)
  = Ok [0; 6]%float.
Proof. vm_compute. reflexivity. Qed.

Example get_hessian_eigenvectors_toy :
  get_hessian_eigenvectors ToyHessian.act ToyHessian.eigsh
    ToyHessian.model (fun _ _ => ToyHessian.diag_loss)
    ToyHessian.loader 2 1 None
  = Ok ([6], [[0; 1]])%float.
Proof. vm_compute. reflexivity. Qed.

(** * Further properties of the code *)

(** ** Data loading *)

Section LoaderFacts.
Context {A : Type}.
Implicit Types (batch data : list A) (k : nat).

Lemma batch_sampler_concat k data : forall batch,
  length batch < k ->
  concat (batch_sampler k batch data) = batch ++ data.
Proof.
  induction data as [|a rest IH]; intros batch Hlt; simpl.
  - destruct batch; simpl; by rewrite ?app_nil_r.
  - destruct (Nat.eqb_spec (length (batch ++ [a])) k) as [Hfull|Hroom].
    + simpl. rewrite IH by (simpl; lia). simpl. by rewrite <- app_assoc.
    + rewrite IH; [by rewrite <- app_assoc|].
      rewrite length_app in *. simpl in *. lia.
Qed.

Lemma batch_sampler_sizes k data : forall batch,
  length batch < k ->
  Forall (fun b => 1 <= length b <= k) (batch_sampler k batch data).
Proof.
  induction data as [|a rest IH]; intros batch Hlt; simpl.
  - destruct batch as [|b batch]; [apply Forall_nil_2|].
    apply Forall_cons_2; [simpl in *; lia | apply Forall_nil_2].
  - destruct (Nat.eqb_spec (length (batch ++ [a])) k) as [Hfull|Hroom].
    + apply Forall_cons_2; [rewrite Hfull; lia | apply IH; simpl; lia].
    + apply IH. rewrite length_app in *. simpl in *. lia.
Qed.

Lemma batch_sampler_count k data : forall batch,
  length batch < k ->
  length (batch_sampler k batch data)
  = (length batch + length data + (k - 1)) / k.
Proof.
  induction data as [|a rest IH]; intros batch Hlt; simpl.
  - destruct batch as [|b batch]; simpl in *.
    + rewrite Nat.div_small; lia.
    + apply (Nat.div_unique _ k 1 (length batch)); lia.
  - destruct (Nat.eqb_spec (length (batch ++ [a])) k) as [Hfull|Hroom];
      rewrite length_app in *; simpl in *.
    + rewrite IH by (simpl; lia). simpl.
      replace (length batch + S (length rest) + (k - 1))
        with (length rest + (k - 1) + 1 * k) by lia.
      rewrite Nat.div_add by lia. lia.
    + rewrite IH by (rewrite length_app; simpl; lia).
      rewrite length_app. simpl. f_equal. lia.
Qed.

Lemma batch_sampler_full k data : forall batch,
  length batch < k ->
  forall i b, batch_sampler k batch data !! i = Some b ->
  S i < length (batch_sampler k batch data) -> length b = k.
Proof.
  induction data as [|a rest IH]; intros batch Hlt i b; simpl.
  - destruct batch; simpl; [done|].
    destruct i; simpl; intros; lia || done.
  - destruct (Nat.eqb_spec (length (batch ++ [a])) k) as [Hfull|Hroom].
    + destruct i as [|i]; simpl.
      * intros [= <-] _. exact Hfull.
      * intros Hb Hi. apply (IH [] ltac:(simpl; lia) i b Hb). lia.
    + apply IH. rewrite length_app in *. simpl in *. lia.
Qed.

End LoaderFacts.

Section CreateDataloaderFacts.
Context {St : Type}.
Implicit Types (x : list St) (batch_size : nat).

Lemma length_tail_pred x : length (tail x) = length x - 1.
Proof. destruct x; simpl; lia. Qed.

Lemma length_removelast_tail x : length (removelast x) = length (tail x).
Proof.
  rewrite removelast_firstn_len, length_take, length_tail_pred. lia.
Qed.

Lemma DataLoader_inputs {A B} (dataset : list (A * B)) k :
  0 < k -> concat (map fst (DataLoader dataset k)) = map fst dataset.
Proof.
  intros Hk. unfold DataLoader.
  transitivity (concat (map (map fst) (batch_sampler k [] dataset))).
  { f_equal. rewrite map_map. reflexivity. }
  rewrite <- concat_map.
  rewrite batch_sampler_concat by (simpl; lia). reflexivity.
Qed.

Lemma DataLoader_targets {A B} (dataset : list (A * B)) k :
  0 < k -> concat (map snd (DataLoader dataset k)) = map snd dataset.
Proof.
  intros Hk. unfold DataLoader.
  transitivity (concat (map (map snd) (batch_sampler k [] dataset))).
  { f_equal. rewrite map_map. reflexivity. }
  rewrite <- concat_map.
  rewrite batch_sampler_concat by (simpl; lia). reflexivity.
Qed.

Lemma length_DataLoader {A B} (dataset : list (A * B)) k :
  0 < k -> length (DataLoader dataset k) = (length dataset + (k - 1)) / k.
Proof.
  intros Hk. unfold DataLoader.
  rewrite length_map, batch_sampler_count by (simpl; lia). reflexivity.
Qed.

Lemma length_dataset x :
  length (zip (removelast x) (tail x)) = length x - 1.
Proof.
  rewrite length_zip_with, length_removelast_tail, length_tail_pred. lia.
Qed.

(** The samples of the loaders, read in order over all batches, are the
    consecutive pairs of the trajectory: sample [i] has input [x[i]] and
    target [x[i+1]], nothing is dropped and nothing is repeated; the two
    loaders yield the same batches. *)
Theorem create_dataloader_samples x batch_size :
  let train_loader := fst (create_dataloader x batch_size) in
  let test_loader := snd (create_dataloader x batch_size) in
  test_loader = train_loader /\
  concat (map fst train_loader) = removelast x /\
  concat (map snd train_loader) = tail x /\
  length (concat (map fst train_loader)) = length x - 1 /\
  forall i, S i < length x ->
    concat (map fst train_loader) !! i = x !! i /\
    concat (map snd train_loader) !! i = x !! (S i).
Proof.
  intros train_loader test_loader.
  assert (Hin : concat (map fst train_loader) = removelast x).
  { unfold train_loader, create_dataloader. cbn [fst].
    rewrite DataLoader_inputs by (unfold BATCH_SIZE; lia).
    apply fst_zip. rewrite length_removelast_tail. lia. }
  assert (Hout : concat (map snd train_loader) = tail x).
  { unfold train_loader, create_dataloader. cbn [fst].
    rewrite DataLoader_targets by (unfold BATCH_SIZE; lia).
    apply snd_zip. rewrite length_removelast_tail. lia. }
  split; [reflexivity|]. split; [exact Hin|]. split; [exact Hout|].
  split.
  - rewrite Hin, length_removelast_tail, length_tail_pred. lia.
  - intros i Hi. rewrite Hin, Hout. split.
    + rewrite removelast_firstn_len. apply lookup_take_lt. lia.
    + apply lookup_tail.
Qed.

Lemma create_dataloader_batches_count x batch_size :
  length (fst (create_dataloader x batch_size)) = (length x - 1 + 49) / 50.
Proof.
  unfold create_dataloader. cbn [fst].
  rewrite length_DataLoader by (unfold BATCH_SIZE; lia).
  rewrite length_dataset. reflexivity.
Qed.

(** The loaders cut the [len(x) - 1] samples into batches of [BATCH_SIZE]
    = 50 whatever [batch_size] is passed: there are
    [ceil((len(x) - 1) / 50)] batches, every batch holds between 1 and 50
    samples with as many targets as inputs, every batch but the last holds
    exactly 50, and the [batch_size] argument has no effect. *)
Theorem create_dataloader_batches x batch_size :
  let train_loader := fst (create_dataloader x batch_size) in
  length train_loader = (length x - 1 + 49) / 50 /\
  Forall (fun b => 1 <= length (fst b) <= 50 /\
                   length (snd b) = length (fst b)) train_loader /\
  (forall i b, train_loader !! i = Some b -> S i < length train_loader ->
     length (fst b) = 50) /\
  forall batch_size', create_dataloader x batch_size'
                      = create_dataloader x batch_size.
Proof.
  intros train_loader. unfold train_loader, create_dataloader. cbn [fst].
  set (dataset := zip (removelast x) (tail x)).
  split; [|split; [|split]].
  - apply (create_dataloader_batches_count x batch_size).
  - unfold DataLoader. apply Forall_fmap.
    eapply Forall_impl;
      [apply (batch_sampler_sizes BATCH_SIZE dataset []); simpl;
       unfold BATCH_SIZE; lia|].
    intros b Hb. simpl. rewrite !length_map. unfold BATCH_SIZE in Hb. lia.
  - intros i b Hb Hi. unfold DataLoader in Hb, Hi.
    rewrite list_lookup_fmap in Hb. rewrite length_map in Hi.
    destruct (batch_sampler BATCH_SIZE [] dataset !! i) as [c|] eqn:Hc;
      [|discriminate].
    injection Hb as <-. simpl. rewrite length_map.
    apply (batch_sampler_full BATCH_SIZE dataset []
             ltac:(simpl; unfold BATCH_SIZE; lia) i c Hc Hi).
  - reflexivity.
Qed.

(** A trajectory of at most one point has no consecutive pair: the loaders
    yield no batch; any longer trajectory gives at least one batch. *)
Lemma create_dataloader_empty x batch_size :
  fst (create_dataloader x batch_size) = [] <-> length x <= 1.
Proof.
  pose proof (create_dataloader_batches_count x batch_size) as Hn.
  rewrite <- length_zero_iff_nil, Hn. split.
  - intros Hz. destruct (le_lt_dec (length x) 1) as [|Hlt]; [assumption|].
    assert (1 <= (length x - 1 + 49) / 50)
      by (apply Nat.div_le_lower_bound; lia). lia.
  - intros Hle. apply Nat.div_small. lia.
Qed.

End CreateDataloaderFacts.

(** ** The training loop: failures, histories and what it leaves behind *)

Lemma foldM_seq_S {A} (body : A -> nat -> result A) (a n : nat) (st : A) :
  foldM body (seq a (S n)) st
  = rbind (body st a) (foldM body (seq (S a) n)).
Proof. reflexivity. Qed.

Section TrainMoreFacts.
Context {R T Net OptState : Type} `{Scalar R} `{Tensor R T}.
Variable net_apply : Net -> T -> T.
Variable criterion : T -> T -> float.
Variable optim_Adam : Net -> float -> float -> OptState.
Variable optimizer_step :
  OptState -> ShallowODE R Net -> T -> T -> OptState * Net.
Implicit Types (h : gmap loc (ShallowODE R Net)) (l s ODEnet : loc)
  (st : loop_state (R:=R) (Net:=Net) (OptState:=OptState))
  (train_loader test_loader : list (T * T)).

Local Abbreviation train_epoch' :=
  (train_epoch net_apply criterion optimizer_step).
Local Abbreviation train_batch' :=
  (train_batch net_apply criterion optimizer_step).
Local Abbreviation train' :=
  (train net_apply criterion optim_Adam optimizer_step).

(** The first epoch decides the run when it raises. *)
Lemma train_first_epoch_raises h ODEnet m train_loader test_loader
    lr wd meth d e :
  h !! ODEnet = Some m ->
  train_epoch' ODEnet train_loader test_loader
    (mkLoop (alter (set_integrator d meth) ODEnet h)
            (optim_Adam (net m) lr wd) [] [] [] None) 1 = Raise e ->
  train' h ODEnet train_loader test_loader lr wd meth d = Raise e.
Proof.
  intros Hm Hepoch. unfold train, deref. rewrite Hm. cbn [rbind].
  unfold train_epochs.
  change NUMBER_EPOCHS with (S 999). rewrite foldM_seq_S, Hepoch.
  reflexivity.
Qed.

Lemma train_epoch_empty_train_loader ODEnet test_loader st epoch :
  train_epoch' ODEnet [] test_loader st epoch = Raise ZeroDivisionError.
Proof. reflexivity. Qed.

Lemma train_empty_train_loader h ODEnet test_loader lr wd meth d :
  is_Some (h !! ODEnet) ->
  train' h ODEnet [] test_loader lr wd meth d = Raise ZeroDivisionError.
Proof.
  intros [m Hm]. eapply train_first_epoch_raises; [exact Hm|].
  apply train_epoch_empty_train_loader.
Qed.

Lemma train_epoch_empty_test_loader ODEnet train_loader st epoch :
  exists e, train_epoch' ODEnet train_loader [] st epoch = Raise e.
Proof.
  unfold train_epoch.
  destruct (foldM _ train_loader _) as [[[[h2 opt] loss_ave] hist]|e];
    cbn [rbind]; [|by eexists].
  destruct (py_truediv loss_ave _) as [ave|e]; cbn [rbind]; [|by eexists].
  destruct (deref _ ODEnet) as [m|e]; cbn [rbind]; [|by eexists].
  by eexists.
Qed.

(** Both loaders must yield a batch for a run to return: with an empty
    [train_loader] or an empty [test_loader] the division by the number of
    batches raises in the first epoch. *)
Theorem train_returns_only_with_batches h ODEnet train_loader test_loader
    lr wd meth d r :
  train net_apply criterion optim_Adam optimizer_step h ODEnet
    train_loader test_loader lr wd meth d = Ok r ->
  train_loader <> [] /\ test_loader <> [].
Proof.
  intros Hrun.
  assert (Hm : is_Some (h !! ODEnet)).
  { unfold train, deref in Hrun.
    destruct (h !! ODEnet); [by eexists | discriminate]. }
  split; intros ->.
  - rewrite train_empty_train_loader in Hrun by assumption. discriminate.
  - destruct Hm as [m Hm].
    unfold train, deref in Hrun. rewrite Hm in Hrun. cbn [rbind] in Hrun.
    unfold train_epochs in Hrun. change NUMBER_EPOCHS with (S 999) in Hrun.
    rewrite foldM_seq_S in Hrun.
    destruct (train_epoch_empty_test_loader ODEnet train_loader
                (mkLoop (alter (set_integrator d meth) ODEnet h)
                        (optim_Adam (net m) lr wd) [] [] [] None) 1)
      as [e He].
    rewrite He in Hrun. discriminate.
Qed.

(** *** Histories *)

Lemma train_batches_hist ODEnet batches : forall h opt a hist h' opt' a' hist',
  foldM (train_batch' ODEnet) batches (h, opt, a, hist)
    = Ok (h', opt', a', hist') ->
  length hist' = length hist + length batches.
Proof.
  induction batches as [|b batches IH]; simpl;
    intros h opt a hist h' opt' a' hist' Hrun.
  - injection Hrun as _ _ _ <-. lia.
  - inv_bind Hrun. destruct a0 as [[[h1 opt1] a1] hist1].
    apply IH in Hrun. rewrite Hrun.
    unfold train_batch in Ha. destruct b as [inputs targets].
    do 2 inv_bind Ha.
    destruct (optimizer_step opt a0 inputs targets) as [o n].
    injection Ha as _ _ _ <-. rewrite length_app. simpl. lia.
Qed.

Lemma train_epoch_hist ODEnet train_loader test_loader st st' epoch :
  train_epoch' ODEnet train_loader test_loader st epoch = Ok st' ->
  length (ode_loss_hist st')
    = length (ode_loss_hist st) + length train_loader /\
  length (ode_loss_ave_hist st') = S (length (ode_loss_ave_hist st)) /\
  length (ode_test_loss_ave_hist st')
    = S (length (ode_test_loss_ave_hist st)).
Proof.
  unfold train_epoch. intros Hrun.
  inv_bind Hrun. destruct a as [[[h2 opt] loss_ave] hist].
  apply train_batches_hist in Ha.
  do 4 inv_bind Hrun.
  rewrite py_min_snoc_not_lt in Hrun.
  injection Hrun as <-. simpl. rewrite !length_app. simpl. lia.
Qed.

Lemma train_epochs_hist ODEnet train_loader test_loader epochs :
  forall st st',
  foldM (train_epoch' ODEnet train_loader test_loader) epochs st = Ok st' ->
  length (ode_loss_hist st')
    = length (ode_loss_hist st) + length epochs * length train_loader /\
  length (ode_loss_ave_hist st')
    = length (ode_loss_ave_hist st) + length epochs /\
  length (ode_test_loss_ave_hist st')
    = length (ode_test_loss_ave_hist st) + length epochs.
Proof.
  induction epochs as [|e epochs IH]; simpl; intros st st' Hrun.
  - injection Hrun as <-. lia.
  - inv_bind Hrun. apply train_epoch_hist in Ha. apply IH in Hrun. lia.
Qed.

(** A run that returns hands back one training loss per batch and per
    epoch, in order of computation, and one averaged test loss per epoch:
    [NUMBER_EPOCHS * len(train_loader)] and [NUMBER_EPOCHS] values. *)
Theorem train_history_lengths h ODEnet train_loader test_loader lr wd meth d
    h' ref best hist test_hist :
  train net_apply criterion optim_Adam optimizer_step h ODEnet
    train_loader test_loader lr wd meth d
    = Ok (h', (ref, best, hist, test_hist)) ->
  length hist = NUMBER_EPOCHS * length train_loader /\
  length test_hist = NUMBER_EPOCHS.
Proof.
  unfold train, train_epochs. intros Hrun.
  do 2 inv_bind Hrun.
  apply train_epochs_hist in Ha0 as (Hhist & _ & Htest).
  rewrite length_seq in Hhist, Htest.
  cbn [ode_loss_hist ode_test_loss_ave_hist length] in Hhist, Htest.
  injection Hrun as _ _ _ <- <-. lia.
Qed.

(** *** What a run leaves in the heap *)

Lemma train_batches_live ODEnet batches :
  forall h opt a hist h' opt' a' hist' m,
  foldM (train_batch' ODEnet) batches (h, opt, a, hist)
    = Ok (h', opt', a', hist') ->
  h !! ODEnet = Some m ->
  exists m', h' !! ODEnet = Some m' /\ dt m' = dt m /\
             method m' = method m /\ training m' = training m.
Proof.
  induction batches as [|b batches IH]; simpl;
    intros h opt a hist h' opt' a' hist' m Hrun Hm.
  - injection Hrun as <- _ _ _. by exists m.
  - inv_bind Hrun. destruct a0 as [[[h1 opt1] a1] hist1].
    apply train_batch_heap in Ha as [n ->].
    destruct (IH _ _ _ _ _ _ _ _ (set_net n m) Hrun) as (m' & Hm' & ? & ? & ?).
    { by rewrite update_params_live, Hm. }
    by exists m'.
Qed.

Lemma train_batches_absent ODEnet batches :
  forall h opt a hist h' opt' a' hist',
  foldM (train_batch' ODEnet) batches (h, opt, a, hist)
    = Ok (h', opt', a', hist') ->
  h !! ODEnet = None -> h' !! ODEnet = None.
Proof.
  destruct batches as [|[inputs targets] batches]; simpl;
    intros h opt a hist h' opt' a' hist' Hrun Hm.
  - by injection Hrun as <- _ _ _.
  - unfold deref in Hrun. rewrite Hm in Hrun. discriminate.
Qed.

Lemma train_epoch_heap ODEnet train_loader test_loader st st' epoch :
  train_epoch' ODEnet train_loader test_loader st epoch = Ok st' ->
  (forall s, s <> ODEnet -> st_heap st' !! s = st_heap st !! s) /\
  exists m m', st_heap st !! ODEnet = Some m /\
               st_heap st' !! ODEnet = Some m' /\
               dt m' = dt m /\ method m' = method m /\ training m' = false.
Proof.
  unfold train_epoch. intros Hrun.
  inv_bind Hrun. destruct a as [[[h2 opt] loss_ave] hist].
  do 4 inv_bind Hrun.
  rewrite py_min_snoc_not_lt in Hrun. injection Hrun as <-. cbn [st_heap].
  split.
  - intros s Hs. rewrite lookup_alter_ne by done.
    rewrite (train_batches_other _ _ _ _ _ _ Hs _ _ _ _ _ _ _ _ Ha).
    by rewrite lookup_alter_ne.
  - unfold deref in Ha1. rewrite lookup_alter_eq in Ha1.
    destruct (h2 !! ODEnet) as [m2|] eqn:Hm2; [|discriminate].
    destruct (st_heap st !! ODEnet) as [m|] eqn:Hm.
    + assert (Hlive : alter (set_training true) ODEnet (st_heap st) !! ODEnet
                      = Some (set_training true m))
        by (by rewrite lookup_alter_eq, Hm).
      destruct (train_batches_live _ _ _ _ _ _ _ _ _ _ _ Ha Hlive)
        as (m' & Hm' & Hdt & Hmeth & _).
      rewrite Hm2 in Hm'. injection Hm' as <-.
      exists m, (set_training false m2).
      split; [done|]. split; [by rewrite lookup_alter_eq, Hm2|].
      by repeat split.
    + assert (Habsent : alter (set_training true) ODEnet (st_heap st)
                          !! ODEnet = None)
        by (by rewrite lookup_alter_eq, Hm).
      rewrite (train_batches_absent _ _ _ _ _ _ _ _ _ _ Ha Habsent) in Hm2.
      discriminate.
Qed.

Lemma train_epochs_heap ODEnet train_loader test_loader epochs :
  forall st st',
  foldM (train_epoch' ODEnet train_loader test_loader) epochs st = Ok st' ->
  epochs <> [] ->
  (forall s, s <> ODEnet -> st_heap st' !! s = st_heap st !! s) /\
  exists m m', st_heap st !! ODEnet = Some m /\
               st_heap st' !! ODEnet = Some m' /\
               dt m' = dt m /\ method m' = method m /\ training m' = false.
Proof.
  induction epochs as [|e epochs IH]; [done|].
  simpl. intros st st' Hrun _. inv_bind Hrun.
  apply train_epoch_heap in Ha as (Hother & m & m1 & Hm & Hm1 & Hdt & Hmeth & Htr).
  destruct epochs as [|e' epochs].
  - injection Hrun as <-. split; [exact Hother|]. by exists m, m1.
  - destruct (IH _ _ Hrun ltac:(done))
      as (Hother' & m1' & m' & Hm1' & Hm' & Hdt' & Hmeth' & Htr').
    rewrite Hm1 in Hm1'. injection Hm1' as <-.
    split.
    + intros s Hs. by rewrite Hother', Hother.
    + exists m, m'. repeat split; congruence.
Qed.

(** A run that returns hands back the reference it was given; it leaves
    every other object of the heap as it was and allocates none (no
    checkpoint is ever copied); the live model carries the [dt] and the
    [method] passed to [train], whatever it was built with, and is in
    evaluation mode. *)
Theorem train_leaves_model_configured h ODEnet train_loader test_loader
    lr wd meth d h' ref best hist test_hist :
  train net_apply criterion optim_Adam optimizer_step h ODEnet
    train_loader test_loader lr wd meth d
    = Ok (h', (ref, best, hist, test_hist)) ->
  ref = ODEnet /\
  dom h' = dom h /\
  (forall s, s <> ODEnet -> h' !! s = h !! s) /\
  exists m', h' !! ODEnet = Some m' /\
             dt m' = Some d /\ method m' = meth /\ training m' = false.
Proof.
  unfold train, train_epochs. intros Hrun.
  do 2 inv_bind Hrun.
  injection Hrun as <- <- _ _ _.
  apply train_epochs_heap in Ha0 as (Hother & m0 & m' & Hm0 & Hm' & Hdt & Hmeth & Htr);
    [|discriminate].
  cbn [st_heap] in Hother, Hm0.
  unfold deref in Ha. destruct (h !! ODEnet) as [m|] eqn:Hm; [|discriminate].
  rewrite lookup_alter_eq, Hm in Hm0. injection Hm0 as <-.
  assert (Hframe : forall s, s <> ODEnet -> st_heap a0 !! s = h !! s).
  { intros s Hs. rewrite Hother by done. by rewrite lookup_alter_ne. }
  split; [reflexivity|]. split; [|split; [exact Hframe|]].
  - apply set_eq. intros s. rewrite !elem_of_dom.
    destruct (decide (s = ODEnet)) as [->|Hs].
    + rewrite Hm, Hm'. split; by eexists.
    + by rewrite Hframe.
  - exists m'. by repeat split.
Qed.

(** *** An unsupported method *)



End TrainMoreFacts.

Section ShortTrajectory.
Context {R St Net OptState : Type} `{Scalar R} `{Tensor R (list St)}.
Variable net_apply : Net -> list St -> list St.
Variable criterion : list St -> list St -> float.
Variable optim_Adam : Net -> float -> float -> OptState.
Variable optimizer_step :
  OptState -> ShallowODE R Net -> list St -> list St -> OptState * Net.

(** A trajectory of at most one point has no pair to learn from: on the
    loaders [create_dataloader] builds from it, [train] raises
    [ZeroDivisionError] in its first epoch and the construction of the
    Hessian subset raises for every [num_batches]. *)
Theorem short_trajectory_cannot_be_used (x : list St) (batch_size : nat)
    (h : gmap loc (ShallowODE R Net)) (ODEnet : loc) (lr wd : float)
    (meth : string) (d : R) :
  length x <= 1 ->
  is_Some (h !! ODEnet) ->
  train net_apply criterion optim_Adam optimizer_step h ODEnet
    (fst (create_dataloader x batch_size))
    (snd (create_dataloader x batch_size)) lr wd meth d
  = Raise ZeroDivisionError /\
  forall num_batches,
    build_subset (fst (create_dataloader x batch_size)) num_batches
    = Raise EmptyCat.
Proof.
  intros Hx Hm.
  apply (create_dataloader_empty x batch_size) in Hx.
  rewrite Hx. split.
  - by apply train_empty_train_loader.
  - intros num_batches. rewrite build_subset_take. by rewrite take_nil.
Qed.

End ShortTrajectory.

(** The run of the one-weight model returns: its single loader is not
    empty. *)
Lemma train_returns_only_with_batches_witness :
  exists r, Toy.run = Ok r /\ Toy.loader <> [] /\ Toy.loader <> [].
Proof.
  destruct Toy.run as [r|e] eqn:Hrun.
  - exists r. split; [reflexivity|].
    exact (train_returns_only_with_batches Toy.net_apply Toy.criterion
             Toy.optim_init Toy.halving_step _ _ _ _ _ _ _ _ _ Hrun).
  - vm_compute in Hrun. discriminate.
Defined.

Lemma train_history_lengths_witness :
  match Toy.run with
  | Ok (_, (_, _, hist, test_hist)) =>
      length hist = NUMBER_EPOCHS * length Toy.loader /\
      length test_hist = NUMBER_EPOCHS
  | Raise _ => False
  end.
Proof.
  destruct Toy.run as [[h [[[ref best] hist] test_hist]]|e] eqn:Hrun.
  - exact (train_history_lengths Toy.net_apply Toy.criterion
             Toy.optim_init Toy.halving_step _ _ _ _ _ _ _ _ _ _ _ _ _ Hrun).
  - vm_compute in Hrun. discriminate.
Defined.

Lemma train_leaves_model_configured_witness :
  match Toy.run with
  | Ok (h', (ref, _, _, _)) =>
      ref = 1%positive /\
      dom h' = dom Toy.heap0 /\
      (forall s, s <> 1%positive -> h' !! s = Toy.heap0 !! s) /\
      exists m', h' !! 1%positive = Some m' /\
                 dt m' = Some (lit 1) /\ method m' = "euler" /\
                 training m' = false
  | Raise _ => False
  end.
Proof.
  destruct Toy.run as [[h [[[ref best] hist] test_hist]]|e] eqn:Hrun.
  - exact (train_leaves_model_configured Toy.net_apply Toy.criterion
             Toy.optim_init Toy.halving_step _ _ _ _ _ _ _ _ _ _ _ _ _ Hrun).
  - vm_compute in Hrun. discriminate.
Defined.


Lemma short_trajectory_cannot_be_used_witness :
  train (T:=list float) (fun (w : float) (xs : list float) => map (PrimFloat.mul w) xs)
    (fun o t => PrimFloat.zero) Toy.optim_init
    (fun o m inputs targets => (tt, net m))
    Toy.heap0 1%positive
    (fst (create_dataloader [1%float] 50))
    (snd (create_dataloader [1%float] 50))
    (lit 0.005) (lit 0) "rk4" (lit 0.1)
  = Raise ZeroDivisionError /\
  forall num_batches,
    build_subset (fst (create_dataloader [1%float] 50)) num_batches
    = Raise EmptyCat.
Proof.
  apply short_trajectory_cannot_be_used; [simpl; lia | by eexists].
Defined.

(** ** The integrators on particular vector fields *)

(** On the linear field [f(y) = a y] (entry by entry, exact arithmetic) a
    step multiplies the state by a polynomial in [z = a dt]: [1 + z] for
    Euler, and the Taylor polynomial of [exp z] of degree four,
    [1 + z + z^2/2 + z^3/6 + z^4/24], for RK4. *)
Theorem steps_on_linear_field (I : Type) (a dt : Qc) (x : I -> Qc) (i : I) :
  let f := fun (y : I -> Qc) (j : I) => (a * y j)%Qc in
  let z := (a * dt)%Qc in
  fst (euler_step_func f x dt) i = (x i * (1 + z))%Qc /\
  fst (rk4_step_func f x dt) i
  = (x i * (1 + z + z * z / lit 2 + z * z * z / lit 6
            + z * z * z * z / lit 24))%Qc.
Proof.
  intros f z. split.
  - unfold euler_step_func, call, tbind, tret, f, z. simpl. ring.
  - unfold rk4_step_func, call, tbind, tret. cbn [fst snd app].
    rewrite Qc_half_mul.
    unfold f, z. simpl.
    assert (E24 : Q2Qc 24 = (Q2Qc 2 * Q2Qc 2 * Q2Qc 6)%Qc)
      by (apply Qc_is_canon; vm_compute; reflexivity).
    assert (E6 : Q2Qc 6 = (Q2Qc 2 * Q2Qc 3)%Qc)
      by (apply Qc_is_canon; vm_compute; reflexivity).
    assert (E3 : Q2Qc 3 = (1 + 1 + 1)%Qc)
      by (apply Qc_is_canon; vm_compute; reflexivity).
    assert (E2 : Q2Qc 2 = (1 + 1)%Qc)
      by (apply Qc_is_canon; vm_compute; reflexivity).
    rewrite E24, E6, E3, E2. field. repeat split; Qc_nonzero.
Qed.

(** An equilibrium of the vector field is a fixed point of both steps in
    exact arithmetic, and RK4 evaluates the field at states equal to the
    equilibrium only. *)
Theorem steps_fix_equilibria (I : Type) (f : (I -> Qc) -> I -> Qc)
    (x : I -> Qc) (dt : Qc) :
  (forall y y', (forall j, y j = y' j) -> forall j, f y j = f y' j) ->
  (forall j, f x j = lit 0) ->
  (forall i, fst (euler_step_func f x dt) i = x i) /\
  (forall i, fst (rk4_step_func f x dt) i = x i) /\
  Forall (fun y => forall j, y j = x j) (snd (rk4_step_func f x dt)).
Proof.
  intros Hext Hzero.
  assert (Hstay : forall (c : Qc) (k : I -> Qc),
            (forall j, k j = lit 0) -> forall j, (x + c *: k)%T j = x j).
  { intros c k Hk j. simpl. rewrite Hk. simpl. ring. }
  assert (Hk : forall y, (forall j, y j = x j) -> forall j, f y j = lit 0).
  { intros y Hy j. rewrite (Hext y x Hy). apply Hzero. }
  unfold euler_step_func, rk4_step_func, call, tbind, tret.
  cbn [fst snd app].
  set (k1 := f x).
  set (x1 := (x + (lit 0.5 * dt)%R *: k1)%T).
  set (k2 := f x1).
  set (x2 := (x + (lit 0.5 * dt)%R *: k2)%T).
  set (k3 := f x2).
  set (x3 := (x + dt *: k3)%T).
  set (k4 := f x3).
  assert (H1 : forall j, k1 j = lit 0) by apply Hzero.
  assert (Hx1 : forall j, x1 j = x j) by (by apply Hstay).
  assert (H2 : forall j, k2 j = lit 0) by (by apply Hk).
  assert (Hx2 : forall j, x2 j = x j) by (by apply Hstay).
  assert (H3 : forall j, k3 j = lit 0) by (by apply Hk).
  assert (Hx3 : forall j, x3 j = x j) by (by apply Hstay).
  assert (H4 : forall j, k4 j = lit 0) by (by apply Hk).
  split; [|split].
  - intros i. by apply Hstay.
  - intros i. simpl. rewrite H1, H2, H3, H4. simpl. ring.
  - repeat apply Forall_cons_2; try apply Forall_nil_2; done.
Qed.

(** The pendulum-like field [(y0, y1) -> (y1, -y0)] at its equilibrium
    (0, 0). *)
Lemma steps_fix_equilibria_witness :
  let f := fun (y : bool -> Qc) (j : bool) =>
             if j then Qcopp (y false) else y true in
  let x := fun _ : bool => lit 0 : Qc in
  (forall i, fst (euler_step_func f x (lit 0.2)) i = x i) /\
  (forall i, fst (rk4_step_func f x (lit 0.2)) i = x i) /\
  Forall (fun y => forall j, y j = x j) (snd (rk4_step_func f x (lit 0.2))).
Proof.
  intros f x.
  apply (steps_fix_equilibria bool f x (lit 0.2)).
  - intros y y' Hy j. unfold f. destruct j; by rewrite Hy.
  - intros j. unfold f, x. destruct j; apply Qc_is_canon; reflexivity.
Defined.

(** ** forward: its cost and the constructor's defaults *)

Section ForwardMoreFacts.
Context {R T Net : Type} `{Scalar R} `{Tensor R T}.
Variable net_apply : Net -> T -> T.

(** With a step size set, one forward call evaluates the network once
    under 'euler', four times under 'rk4', and not at all under any other
    method name. *)
Theorem forward_evaluation_count (self : ShallowODE R Net) (x : T) (h : R) :
  dt self = Some h ->
  length (snd (forward net_apply self x))
  = if String.eqb (method self) "euler" then 1
    else if String.eqb (method self) "rk4" then 4 else 0.
Proof.
  intros Hdt. unfold forward. rewrite Hdt.
  destruct (String.eqb (method self) "euler"); [reflexivity|].
  destruct (String.eqb (method self) "rk4"); reflexivity.
Qed.

(** A model built without [dt] cannot be evaluated under either
    integrator: the first forward call raises [TypeError], after one
    evaluation of the network; the integrator defaults to Euler when
    [method] is omitted. *)
Theorem default_model_needs_dt (net0 : Net) (x : T) :
  forward net_apply (ShallowODE_init net0 None None) x
    = (Raise TypeError, [x]) /\
  forward net_apply (ShallowODE_init net0 None (Some "rk4")) x
    = (Raise TypeError, [x]) /\
  forall h : R,
    forward net_apply (ShallowODE_init net0 (Some h) None) x
    = (Ok (Some (x + h *: net_apply net0 x)%T), [x]).
Proof.
  split; [|split]; try intros h; unfold forward, ShallowODE_init;
    cbn [method dt net default]; reflexivity.
Qed.

End ForwardMoreFacts.

Lemma forward_evaluation_count_witness :
  length (snd (forward Toy.net_apply
                 (mkShallowODE (lit 1) (Some 0.1%float) "rk4" true) 1%float))
  = 4.
Proof.
  apply (forward_evaluation_count Toy.net_apply
           (mkShallowODE (lit 1) (Some 0.1%float) "rk4" true) 1%float
           0.1%float).
  reflexivity.
Defined.

(** ** The Hessian operator: what it computes *)

Section HvpMoreFacts.
Context {R : Type} {HS : Scalar R}.
Variable act : nat -> R -> R.
Implicit Types (params : list (list nat)) (loss : expr R) (m : Model R)
  (u v : list R) (idx : list nat).

Lemma products_with_constant (g : list (expr R)) (c : R) :
  zip_with (fun a c' => Mul a (Const c')) g (replicate (length g) c)
  = map (fun a => Mul a (Const c)) g.
Proof. induction g as [|a g IH]; simpl; [done|]. by rewrite IH. Qed.

Lemma torch_mul_one_entry (g : list (expr R)) (c : R) :
  length g <> 1 ->
  torch_mul g [c] = Ok (map (fun a => Mul a (Const c)) g).
Proof.
  intros Hg. unfold torch_mul. change (length [c]) with 1.
  rewrite (proj2 (Nat.eqb_neq _ _) Hg).
  destruct g as [|a [|a' g]]; simpl in *; congruence.
Qed.

(** What the silent expansion of C2 computes: on a model with more than
    one parameter entry (or none), a one-entry vector [c] gives the same
    result as the constant vector [(c, ..., c)] of length num_params. *)
Theorem hvp_one_entry_is_constant_vector params loss m (c : R) :
  params <> [] ->
  num_params_of params <> 1 ->
  snd (hessian_vector_product act params loss m [c])
  = snd (hessian_vector_product act params loss m
           (replicate (num_params_of params) c)).
Proof.
  intros Hsel Hn.
  assert (Hg : length (map (fun i => D i loss) (concat params))
               = num_params_of params)
    by (by rewrite length_map, <- num_params_length).
  rewrite !hvp_run by assumption. cbn [snd].
  rewrite torch_mul_one_entry by congruence.
  rewrite torch_mul_same_size by (by rewrite length_replicate).
  rewrite <- Hg, products_with_constant. reflexivity.
Qed.

End HvpMoreFacts.

Lemma hvp_one_entry_is_constant_vector_witness :
  snd (hessian_vector_product ToyHessian.act (parameters ToyHessian.model)
         ToyHessian.loss ToyHessian.model [2%float])
  = snd (hessian_vector_product ToyHessian.act (parameters ToyHessian.model)
           ToyHessian.loss ToyHessian.model
           (replicate (num_params_of (parameters ToyHessian.model))
                      2%float)).
Proof.
  apply (hvp_one_entry_is_constant_vector ToyHessian.act
           (parameters ToyHessian.model) ToyHessian.loss ToyHessian.model
           2%float); simpl; discriminate.
Defined.

Section HvpLinear.
Context {R : Type} {HS : Scalar R} {HE : ExactScalar R}.
Variable act : nat -> R -> R.
Implicit Types (params : list (list nat)) (loss : expr R) (m : Model R)
  (u v : list R) (idx : list nat).

Add Ring scalar_ring_linear : scalar_ring.






End HvpLinear.



(** The entries of the Hessian of the two-parameter loss at (3, 5), read
    off the operator on the unit vectors, in binary64. *)
Example toy_hessian_columns :
  snd (hessian_vector_product ToyHessian.act (parameters ToyHessian.model)
         ToyHessian.loss ToyHessian.model [1; 0]%float) = Ok [10; 7]%float /\
  snd (hessian_vector_product ToyHessian.act (parameters ToyHessian.model)
         ToyHessian.loss ToyHessian.model [0; 1]%float) = Ok [7; 2]%float.
Proof. split; vm_compute; reflexivity. Qed.

(** ** get_hessian_eigenvectors: the data it reads and how it fails *)

Section EigenMoreFacts.
Context {R X Y : Type} `{Scalar R}.
Variable act : nat -> R -> R.
Variable eigsh :
  nat -> (list R -> result (list R)) -> nat
  -> result (list R * list (list R)).
Implicit Types (model : Model R) (loader : list (list X * list Y))
  (num_batches : Z) (k : nat).



(** Failures reach the caller: when no batch is collected the function
    raises before the solver is consulted, whatever the solver; when the
    solver raises (no convergence), its exception is the result and no
    partial eigenpairs are returned. *)
Theorem get_hessian_eigenvectors_failures
    model (compute_loss_fn : list X -> list Y -> expr R) loader num_batches
    k param_extract_fn :
  (loader = [] \/ (num_batches <= 0)%Z ->
   get_hessian_eigenvectors act eigsh model compute_loss_fn loader
     num_batches k param_extract_fn = Raise EmptyCat) /\
  (forall images labels e,
     build_subset loader num_batches = Ok (images, labels) ->
     eigsh (num_params_of (default_param_extract_fn param_extract_fn model))
       (fun v => snd (hessian_vector_product act
                        (default_param_extract_fn param_extract_fn model)
                        (compute_loss_fn images labels) model v)) k
       = Raise e ->
     get_hessian_eigenvectors act eigsh model compute_loss_fn loader
       num_batches k param_extract_fn = Raise e).
Proof.
  split.
  - intros Hempty. unfold get_hessian_eigenvectors.
    rewrite build_subset_take.
    assert (Htake : take (Z.to_nat num_batches) loader = []).
    { destruct Hempty as [-> | Hn]; [apply take_nil|].
      replace (Z.to_nat num_batches) with 0 by lia. reflexivity. }
    by rewrite Htake.
  - intros images labels e Hsub Hsolve. unfold get_hessian_eigenvectors.
    rewrite Hsub. cbn [rbind]. by rewrite Hsolve.
Qed.

End EigenMoreFacts.

(** A solver that does not converge, on the two-parameter model. *)
Example get_hessian_eigenvectors_no_convergence :
  get_hessian_eigenvectors ToyHessian.act
    (fun _ _ _ => Raise ArpackNoConvergence)
    ToyHessian.model (fun _ _ => ToyHessian.diag_loss)
    (ToyHessian.loader (R:=float)) 2 1 None
  = Raise ArpackNoConvergence.
Proof. vm_compute. reflexivity. Qed.

(** ** The script's training call *)

Section ScriptFacts.
Context {R St Net OptState : Type} `{Scalar R} `{Tensor R (list St)}.
Variable net_apply : Net -> list St -> list St.
Variable criterion : list St -> list St -> float.
Variable optim_Adam : Net -> float -> float -> OptState.
Variable optimizer_step :
  OptState -> ShallowODE R Net -> list St -> list St -> OptState * Net.

Lemma unpack3_returned_tuple r : unpack3 (returned_tuple r) = inl ValueError.
Proof. by destruct r as [[[ODEnet best] hist] test_hist]. Qed.

(** The script never gets past its call of [train]: [train] returns four
    values and the assignment names three, so a run of [train] that
    returns ends in [ValueError], and one that raises ends in its own
    exception; in particular a trajectory of at most one point ends in
    [ZeroDivisionError].  No checkpoint is saved and no evaluation is
    made. *)
Theorem script_train_call_never_returns
    (h : gmap loc (ShallowODE R Net)) (net0 : Net) (x : list St)
    (integrator : string) (dt : R) :
  (forall v, script_train_call net_apply criterion optim_Adam optimizer_step
               h net0 x integrator dt <> inr v) /\
  (forall e, script_train_call net_apply criterion optim_Adam optimizer_step
               h net0 x integrator dt = inl (FromTrain e) <->
             train net_apply criterion optim_Adam optimizer_step
               (<[fresh (dom h)
                  := ShallowODE_init net0 (Some dt) (Some integrator)]> h)
               (fresh (dom h))
               (fst (create_dataloader x BATCH_SIZE))
               (snd (create_dataloader x BATCH_SIZE))
               (float_lit LEARNING_RATE) (float_lit WEIGHT_DECAY)
               integrator dt = Raise e) /\
  (length x <= 1 ->
   script_train_call net_apply criterion optim_Adam optimizer_step
     h net0 x integrator dt = inl (FromTrain ZeroDivisionError)).
Proof.
  unfold script_train_call.
  destruct (create_dataloader x BATCH_SIZE) as [train_loader test_loader]
    eqn:Hloaders.
  cbn [fst snd].
  split; [|split].
  - intros v.
    destruct (train _ _ _ _ _ _ _ _ _ _ _ _) as [[h' r]|e]; [|discriminate].
    rewrite unpack3_returned_tuple. discriminate.
  - intros e.
    destruct (train _ _ _ _ _ _ _ _ _ _ _ _) as [[h' r]|e'].
    + rewrite unpack3_returned_tuple. split; discriminate.
    + split; intros [= ->]; reflexivity.
  - intros Hx.
    assert (Hempty : train_loader = []).
    { apply (create_dataloader_empty x BATCH_SIZE) in Hx.
      by rewrite Hloaders in Hx. }
    rewrite Hempty, train_empty_train_loader; [reflexivity|].
    rewrite lookup_insert_eq. by eexists.
Qed.

End ScriptFacts.

(** On the one-weight model [train] returns, and the script's assignment
    raises [ValueError]. *)
Example script_train_call_toy :
  script_train_call (St:=float)
    (fun (w : float) (xs : list float) => map (PrimFloat.mul w) xs)
    (fun o t => PrimFloat.zero) Toy.optim_init
    (fun o m inputs targets => (tt, net m))
    ∅ (lit 1) [1; 2; 3]%float "rk4" 0.2%float
  = inl ValueError.
Proof. vm_compute. reflexivity. Qed.
